(** * UnityContent: the content handle of react-unity-webgl

    A shallow embedding of [source/UnityContent.ts].  The class is a small
    stateful adapter: every method reads and writes the fields of [this],
    two pieces of process-wide state (the static counter
    [UnityContent.uniqueID] and the object [window.ReactUnityWebGL]) and
    calls out to collaborators (the Unity instance, the logging service and
    the callbacks registered by the host application).

    Methods are written in a small state-and-exception monad over the pair
    ([this], process-wide state).  Calls that leave the class are recorded,
    in order, in a log of external calls; the functions called are supplied
    by the host and by the Unity loader, so the embedding records that they
    were called and with what, and lets them return to the caller.  A
    collaborator that throws, or that calls back into the handle while a
    method of it is running, is outside this model.

    Fields are typed as the class declares them: [unityInstance] is an
    instance or [undefined], so the tests [!= null] and
    [typeof ... !== "undefined"] agree on it.  The static counter is a
    JavaScript number that only ever holds integers; it is taken as an
    integer. *)

From Stdlib Require Import ZArith Lia.
From stdpp Require Import base option list strings gmap fin_maps.

Local Open Scope Z_scope.
Local Open Scope string_scope.
Local Open Scope list_scope.

(** ** JavaScript values *)

(** The primitive values that cross the adapter: event values, message
    parameters and the argument of [setFullscreen]. *)
Inductive JsValue : Type :=
| VUndefined
| VNull
| VBool (b : bool)
| VNum (n : Z)
| VStr (s : string).

#[global] Instance JsValue_eq_dec : EqDecision JsValue.
Proof. solve_decision. Defined.

(** The result of the [typeof] operator. *)
Inductive JsType : Type :=
| TyUndefined | TyObject | TyBoolean | TyNumber | TyString | TyFunction.

#[global] Instance JsType_eq_dec : EqDecision JsType.
Proof. solve_decision. Defined.

Definition typeof (v : JsValue) : JsType :=
  match v with
  | VUndefined => TyUndefined
  | VNull => TyObject
  | VBool _ => TyBoolean
  | VNum _ => TyNumber
  | VStr _ => TyString
  end.

(** [a === b] on primitive values. *)
Definition strict_eq (a b : JsValue) : bool := bool_decide (a = b).

(** An optional parameter the caller left out is bound to [undefined]. *)
Definition optional (parameter : option JsValue) : JsValue :=
  default VUndefined parameter.

(** Truthiness, as used by [||]. *)
Class Truthy (A : Type) := truthy : A -> bool.

#[global] Instance string_truthy : Truthy string :=
  fun s => negb (String.eqb s "").
#[global] Instance object_truthy {V : Type} : Truthy (gmap string V) :=
  fun _ => true.

(** [x || d] where [x] is a possibly undefined field. *)
Definition js_or {A : Type} `{Truthy A} (x : option A) (d : A) : A :=
  match x with
  | Some a => if truthy a then a else d
  | None => d
  end.

(** ** Collaborators *)

(** A function supplied by the host application, known by its identity. *)
Inductive Callback : Type := Fn (id : nat).

#[global] Instance Callback_eq_dec : EqDecision Callback.
Proof. solve_decision. Defined.

(** Modelled from the spec: the declaration [declarations/UnityInstance] is
    not part of the sources at hand.  A runtime instance exposes
    [SetFullscreen], [SendMessage] and an optional [Quit]; [has_Quit] says
    whether [typeof instance.Quit === "function"]. *)
Record UnityInstance : Type := {
  instance_id : nat;
  has_Quit : bool
}.

#[global] Instance UnityInstance_eq_dec : EqDecision UnityInstance.
Proof. solve_decision. Defined.

(** The hosting React component, known by its identity. *)
Inductive UnityComponent : Type := Component (id : nat).

(** Modelled from the spec: the interface [interfaces/IUnityConfig] is not
    part of the sources at hand.  Its four fields are all optional; [None]
    is an absent (undefined) field. *)
Record IUnityConfig : Type := {
  modules : option (gmap string JsValue);
  unityVersion : option string;
  adjustOnWindowResize : option bool;
  id : option string
}.

(** The object literal [{}] seen as a configuration. *)
Definition empty_config : IUnityConfig :=
  {| modules := None; unityVersion := None;
     adjustOnWindowResize := None; id := None |}.

(** An event binding, the object pushed by [on]. *)
Record IUnityEvent : Type := {
  eventName : string;
  eventCallback : Callback
}.

(** ** The two arrow functions of the class *)

(** [(parameter) => eventCallback(parameter)], stored by [on] in
    [window.ReactUnityWebGL]. *)
Inductive Forwarder : Type := Forward (eventCallback : Callback).

(** [() => { this.triggerUnityEvent("quitted"); this.unityInstance = undefined; }],
    handed by [remove] to [Quit]; it captures [this]. *)
Inductive QuitCallback : Type := OnQuit.

(** ** State *)

(** The fields of one [UnityContent] object. *)
Record UnityContent : Type := {
  buildJsonPath : string;
  unityLoaderJsPath : string;
  unityComponent : option UnityComponent;
  unityInstance : option UnityInstance;
  unityConfig : IUnityConfig;
  unityEvents : list IUnityEvent;
  uniqueID : Z
}.

(** A call that leaves the class. *)
Inductive ExternalCall : Type :=
| Invoke (callback : Callback) (argument : JsValue)
| SetFullscreen (instance : UnityInstance) (fullScreen : Z)
| SendMessage (instance : UnityInstance) (arguments : list JsValue)
| Quit (instance : UnityInstance) (onQuit : QuitCallback)
| WarnUnityContentRemoveNotAvailable.

(** The state shared by every handle of the process: the static field
    [UnityContent.uniqueID], the global [window.ReactUnityWebGL]
    ([None] while it is undefined) and the log of external calls. *)
Record Globals : Type := {
  UnityContent_uniqueID : Z;
  window_ReactUnityWebGL : option (gmap string Forwarder);
  calls : list ExternalCall
}.

(** The state of a process that has not loaded the class yet. *)
Definition initial_globals : Globals :=
  {| UnityContent_uniqueID := 0;
     window_ReactUnityWebGL := None;
     calls := [] |}.

(** Field updates. *)
Definition with_unityComponent (c : option UnityComponent) (h : UnityContent)
  : UnityContent :=
  {| buildJsonPath := buildJsonPath h;
     unityLoaderJsPath := unityLoaderJsPath h;
     unityComponent := c;
     unityInstance := unityInstance h;
     unityConfig := unityConfig h;
     unityEvents := unityEvents h;
     uniqueID := uniqueID h |}.

Definition with_unityInstance (i : option UnityInstance) (h : UnityContent)
  : UnityContent :=
  {| buildJsonPath := buildJsonPath h;
     unityLoaderJsPath := unityLoaderJsPath h;
     unityComponent := unityComponent h;
     unityInstance := i;
     unityConfig := unityConfig h;
     unityEvents := unityEvents h;
     uniqueID := uniqueID h |}.

Definition with_unityEvents (evs : list IUnityEvent) (h : UnityContent)
  : UnityContent :=
  {| buildJsonPath := buildJsonPath h;
     unityLoaderJsPath := unityLoaderJsPath h;
     unityComponent := unityComponent h;
     unityInstance := unityInstance h;
     unityConfig := unityConfig h;
     unityEvents := evs;
     uniqueID := uniqueID h |}.

Definition with_namespace (ns : option (gmap string Forwarder)) (g : Globals)
  : Globals :=
  {| UnityContent_uniqueID := UnityContent_uniqueID g;
     window_ReactUnityWebGL := ns;
     calls := calls g |}.

Definition with_calls (cs : list ExternalCall) (g : Globals) : Globals :=
  {| UnityContent_uniqueID := UnityContent_uniqueID g;
     window_ReactUnityWebGL := window_ReactUnityWebGL g;
     calls := cs |}.

(** ** The method monad *)

Inductive JsError : Type := TypeError.

(** How a method ends: it returns, or an exception leaves it. *)
Inductive Completion (A : Type) : Type :=
| Normal (a : A)
| Throw (e : JsError).
Arguments Normal {A} a.
Arguments Throw {A} e.

(** A method body runs on [this] and the process-wide state. *)
Definition Method (A : Type) : Type :=
  UnityContent * Globals -> Completion A * (UnityContent * Globals).

#[global] Instance Method_ret : MRet Method :=
  fun A a s => (Normal a, s).

#[global] Instance Method_bind : MBind Method :=
  fun A B k m s =>
    match m s with
    | (Normal a, s') => k a s'
    | (Throw e, s') => (Throw e, s')
    end.

Definition get_this : Method UnityContent :=
  fun s => (Normal (fst s), s).

Definition update_this (f : UnityContent -> UnityContent) : Method unit :=
  fun s => (Normal tt, (f (fst s), snd s)).

Definition get_globals : Method Globals :=
  fun s => (Normal (snd s), s).

Definition update_globals (f : Globals -> Globals) : Method unit :=
  fun s => (Normal tt, (fst s, f (snd s))).

Definition throw {A : Type} (e : JsError) : Method A :=
  fun s => (Throw e, s).

(** An external call is appended to the log and returns. *)
Definition external (c : ExternalCall) : Method unit :=
  update_globals (fun g => with_calls (calls g ++ [c]) g).

(** ** The class *)

(** [new UnityContent(buildJsonPath, unityLoaderJsPath, unityConfig?)]. *)
Definition constructor (buildJsonPath unityLoaderJsPath : string)
    (unityConfig : option IUnityConfig) (g : Globals)
  : UnityContent * Globals :=
  let _unityConfig := default empty_config unityConfig in
  let counter := UnityContent_uniqueID g + 1 in
  let this :=
    {| buildJsonPath := buildJsonPath;
       unityLoaderJsPath := unityLoaderJsPath;
       unityComponent := None;
       unityInstance := None;
       uniqueID := counter;
       unityEvents := [];
       unityConfig :=
         {| modules := Some (js_or (modules _unityConfig) ∅);
            unityVersion :=
              Some (js_or (unityVersion _unityConfig) "undefined");
            adjustOnWindowResize := adjustOnWindowResize _unityConfig;
            id := Some (js_or (id _unityConfig) "nill") |} |} in
  let namespace :=
    match window_ReactUnityWebGL g with
    | None => ∅
    | Some ns => ns
    end in
  (this,
   {| UnityContent_uniqueID := counter;
      window_ReactUnityWebGL := Some namespace;
      calls := calls g |}).

Definition setComponentInstance (unityComponentInstance : UnityComponent)
  : Method unit :=
  update_this (with_unityComponent (Some unityComponentInstance)).

Definition setUnityInstance (unityInstance : UnityInstance) : Method unit :=
  update_this (with_unityInstance (Some unityInstance)).

Definition setFullscreen (fullscreen : JsValue) : Method unit :=
  this ← get_this;
  match unityInstance this with
  | Some instance =>
      external
        (SetFullscreen instance
           (if strict_eq fullscreen (VBool true) then 1 else 0))
  | None => mret tt
  end.

Definition remove : Method unit :=
  this ← get_this;
  match unityInstance this with
  | Some instance =>
      if has_Quit instance
      then external (Quit instance OnQuit)
      else external WarnUnityContentRemoveNotAvailable
  | None => external WarnUnityContentRemoveNotAvailable
  end.

Definition send (gameObjectName methodName : string)
    (parameter : option JsValue) : Method unit :=
  let parameter := optional parameter in
  this ← get_this;
  match unityInstance this with
  | Some instance =>
      if bool_decide (typeof parameter = TyUndefined)
      then external
             (SendMessage instance [VStr gameObjectName; VStr methodName])
      else external
             (SendMessage instance
                [VStr gameObjectName; VStr methodName; parameter])
  | None => mret tt
  end.

Definition on (eventName : string) (eventCallback : Callback) : Method unit :=
  update_this
    (fun this =>
       with_unityEvents
         (unityEvents this ++
            [{| eventName := eventName; eventCallback := eventCallback |}])
         this);;
  g ← get_globals;
  match window_ReactUnityWebGL g with
  | Some namespace =>
      update_globals
        (with_namespace (Some (<[eventName := Forward eventCallback]> namespace)))
  | None => throw TypeError
  end.

(** The [for] loop of [triggerUnityEvent] from index [_i] on; [n] bounds
    the number of iterations still allowed. *)
Fixpoint triggerUnityEvent_loop (n : nat) (_i : nat) (eventName : string)
    (eventValue : JsValue) : Method unit :=
  match n with
  | O => mret tt
  | S n' =>
      this ← get_this;
      if bool_decide (_i < length (unityEvents this))%nat then
        match unityEvents this !! _i with
        | Some {| eventName := name_i; eventCallback := callback_i |} =>
            (if String.eqb name_i eventName
             then external (Invoke callback_i eventValue)
             else mret tt);;
            triggerUnityEvent_loop n' (S _i) eventName eventValue
        | None => throw TypeError
        end
      else mret tt
  end.

Definition triggerUnityEvent (eventName : string)
    (eventValue : option JsValue) : Method unit :=
  let eventValue := optional eventValue in
  this ← get_this;
  triggerUnityEvent_loop (length (unityEvents this)) 0 eventName eventValue.

(** The body of the arrow function handed to [Quit]. *)
Definition apply_QuitCallback (k : QuitCallback) : Method unit :=
  match k with
  | OnQuit =>
      triggerUnityEvent "quitted" None;;
      update_this (with_unityInstance None)
  end.



(** ** A process

    A process holds every handle it has constructed, in construction order
    (a discarded handle stays: nothing below depends on its being
    reachable), and the process-wide state.  It advances by constructing a
    handle, by calling a method of a handle, or when the runtime runs a
    callback it was given. *)

Record Process : Type := {
  heap : list UnityContent;
  globals : Globals
}.

Definition initial_process : Process :=
  {| heap := []; globals := initial_globals |}.

Inductive MethodCall : Type :=
| CallSetComponentInstance (unityComponentInstance : UnityComponent)
| CallSetUnityInstance (unityInstance : UnityInstance)
| CallSetFullscreen (fullscreen : JsValue)
| CallRemove
| CallSend (gameObjectName methodName : string) (parameter : option JsValue)
| CallOn (eventName : string) (eventCallback : Callback)
| CallTriggerUnityEvent (eventName : string) (eventValue : option JsValue)
| RunQuitCallback (onQuit : QuitCallback).

Definition method_body (c : MethodCall) : Method unit :=
  match c with
  | CallSetComponentInstance u => setComponentInstance u
  | CallSetUnityInstance i => setUnityInstance i
  | CallSetFullscreen v => setFullscreen v
  | CallRemove => remove
  | CallSend o m p => send o m p
  | CallOn n cb => on n cb
  | CallTriggerUnityEvent n v => triggerUnityEvent n v
  | RunQuitCallback k => apply_QuitCallback k
  end.

Inductive Step : Type :=
| New (buildJsonPath unityLoaderJsPath : string)
      (unityConfig : option IUnityConfig)
| Call (target : nat) (c : MethodCall).

(** One step; [None] when [target] is not a handle of the process.  An
    exception leaves the method and the process goes on from the state
    reached. *)
Definition step (s : Step) (p : Process) : option Process :=
  match s with
  | New b l cfg =>
      let '(this, g) := constructor b l cfg (globals p) in
      Some {| heap := heap p ++ [this]; globals := g |}
  | Call target c =>
      this ← heap p !! target;
      let '(_, (this', g)) := method_body c (this, globals p) in
      Some {| heap := <[target := this']> (heap p); globals := g |}
  end.

Fixpoint run (steps : list Step) (p : Process) : option Process :=
  match steps with
  | [] => Some p
  | s :: rest => step s p ≫= run rest
  end.



(** The calls [triggerUnityEvent eventName eventValue] makes on the
    bindings [evs]: one per binding of that name, in list order. *)
Definition invocations (name : string) (value : JsValue)
    (evs : list IUnityEvent) : list ExternalCall :=
  (fun ev => Invoke (eventCallback ev) value)
    <$> filter (fun ev => eventName ev = name) evs.

(** The callbacks invoked by a list of external calls, with their argument. *)
Definition invoked (cs : list ExternalCall) : list (Callback * JsValue) :=
  omap (fun c => match c with Invoke cb v => Some (cb, v) | _ => None end) cs.

(** ** Sample states *)

(** The first handle of a process, built without a configuration, and the
    process-wide state its construction leaves. *)
Definition fresh_handle : UnityContent :=
  fst (constructor "Build/game.json" "Build/UnityLoader.js" None
         initial_globals).

Definition fresh_globals : Globals :=
  snd (constructor "Build/game.json" "Build/UnityLoader.js" None
         initial_globals).

(** A runtime instance with a [Quit] function, and an older one without. *)
Definition player : UnityInstance := {| instance_id := 0; has_Quit := true |}.
Definition legacy_player : UnityInstance :=
  {| instance_id := 1; has_Quit := false |}.

(** The fresh handle once the runtime has booted. *)
Definition bound_handle : UnityContent :=
  with_unityInstance (Some player) fresh_handle.

(** ** Relations between states *)

(** What a handle keeps for life: its two paths, its merged configuration
    and its identifier; its bindings only ever gain later ones. *)
Definition handle_frame (h h' : UnityContent) : Prop :=
  buildJsonPath h' = buildJsonPath h
  /\ unityLoaderJsPath h' = unityLoaderJsPath h
  /\ unityConfig h' = unityConfig h
  /\ uniqueID h' = uniqueID h
  /\ unityEvents h `prefix_of` unityEvents h'.

(** [name] has an entry in [window.ReactUnityWebGL]. *)
Definition registered (g : Globals) (name : string) : Prop :=
  exists ns f, window_ReactUnityWebGL g = Some ns /\ ns !! name = Some f.

(** How a later state of a process relates to an earlier one. *)
Definition process_frame (p p' : Process) : Prop :=
  (forall (i : nat) (h : UnityContent),
      heap p !! i = Some h ->
      exists h', heap p' !! i = Some h' /\ handle_frame h h')
  /\ (forall name, registered (globals p) name -> registered (globals p') name).

(** Two handles that differ at most in the component bound to them. *)
Definition same_but_component (h1 h2 : UnityContent) : Prop :=
  with_unityComponent None h1 = with_unityComponent None h2.

(** ** Several registrations *)



(** ** Instances a process talks to *)

(** The runtime instance an external call is made on, if any. *)
Definition instance_of (c : ExternalCall) : option UnityInstance :=
  match c with
  | SetFullscreen instance _ => Some instance
  | SendMessage instance _ => Some instance
  | Quit instance _ => Some instance
  | Invoke _ _ => None
  | WarnUnityContentRemoveNotAvailable => None
  end.

(** The instances the steps of a run hand to [setUnityInstance]. *)
Definition attached_by (steps : list Step) : list UnityInstance :=
  omap (fun s =>
          match s with
          | Call _ (CallSetUnityInstance instance) => Some instance
          | _ => None
          end) steps.

(** Every instance a handle holds, and every instance a logged call was
    made on, is one of [known]. *)
Definition talks_only_to (known : list UnityInstance) (p : Process) : Prop :=
  (forall (k : nat) (h : UnityContent) (i : UnityInstance),
      heap p !! k = Some h -> unityInstance h = Some i -> i ∈ known)
  /\ (forall (c : ExternalCall) (i : UnityInstance),
         c ∈ calls (globals p) -> instance_of c = Some i -> i ∈ known).

(** ** Sample runs *)

(** The state a run ends in ([p] itself if a step names no handle). *)
Definition after (steps : list Step) (p : Process) : Process :=
  default p (run steps p).

(** A process with one running handle that listens to "loaded". *)
Definition listening_process : Process :=
  {| heap :=
       [with_unityEvents [{| eventName := "loaded"; eventCallback := Fn 1 |}]
          bound_handle];
     globals :=
       with_namespace (Some (<["loaded" := Forward (Fn 1)]> ∅)) fresh_globals |}.

(** Shut the handle down, let the runtime finish, build a second handle
    and attach a new instance to the first. *)
Definition restart_steps : list Step :=
  [Call 0 CallRemove;
   Call 0 (RunQuitCallback OnQuit);
   New "Build/other.json" "Build/UnityLoader.js" None;
   Call 0 (CallSetUnityInstance legacy_player)].

(** * Properties *)

(** Enter a method body: run its reads of [this] and of the globals. *)
Ltac enter_method :=
  unfold mbind, Method_bind, get_this, get_globals, update_this;
  cbn [fst snd].

(** ** Record updates *)

Lemma with_calls_nil g : with_calls (calls g ++ []) g = g.
Proof. destruct g; unfold with_calls; simpl. by rewrite app_nil_r. Qed.

Lemma with_calls_app g cs1 cs2 :
  with_calls (calls (with_calls (calls g ++ cs1) g) ++ cs2)
    (with_calls (calls g ++ cs1) g)
  = with_calls (calls g ++ cs1 ++ cs2) g.
Proof. unfold with_calls; simpl. by rewrite app_assoc. Qed.

(** ** The dispatch loop *)

Lemma invocations_nil name v : invocations name v [] = [].
Proof. reflexivity. Qed.

Lemma invocations_cons name v ev evs :
  invocations name v (ev :: evs)
  = (if String.eqb (eventName ev) name
     then [Invoke (eventCallback ev) v] else [])
    ++ invocations name v evs.
Proof.
  unfold invocations. rewrite filter_cons.
  destruct (String.eqb_spec (eventName ev) name) as [E | E].
  - by rewrite decide_True.
  - by rewrite decide_False.
Qed.

Lemma invocations_app name v evs1 evs2 :
  invocations name v (evs1 ++ evs2)
  = invocations name v evs1 ++ invocations name v evs2.
Proof. unfold invocations. by rewrite filter_app, fmap_app. Qed.

Lemma invocations_none name v evs :
  (forall ev, ev ∈ evs -> eventName ev <> name) ->
  invocations name v evs = [].
Proof.
  induction evs as [| ev evs IH]; intros Hnone; [reflexivity |].
  rewrite invocations_cons, IH.
  - destruct (String.eqb_spec (eventName ev) name) as [E | E]; [| reflexivity].
    exfalso. apply (Hnone ev); [left | exact E].
  - intros ev' Hev'. apply Hnone. by right.
Qed.

(** From index [_i], with at least as many iterations allowed as bindings
    are left, the loop leaves by its guard, returns normally, and has
    called exactly the matching bindings among those left, in order. *)
Lemma triggerUnityEvent_loop_spec n :
  forall _i name v this g,
    (length (unityEvents this) - _i <= n)%nat ->
    triggerUnityEvent_loop n _i name v (this, g)
    = (Normal tt,
       (this,
        with_calls
          (calls g ++ invocations name v (drop _i (unityEvents this))) g)).
Proof.
  induction n as [| n IH]; intros _i name v this g Hn.
  - simpl. rewrite drop_ge by lia.
    rewrite invocations_nil, with_calls_nil. reflexivity.
  - cbn [triggerUnityEvent_loop].
    unfold mbind, Method_bind, get_this. cbn [fst snd].
    case_bool_decide as Hi.
    + destruct (lookup_lt_is_Some_2 _ _ Hi) as [ev Hev].
      rewrite Hev. destruct ev as [name_i callback_i].
      rewrite (drop_S _ _ _ Hev), invocations_cons. cbn [eventName eventCallback].
      destruct (String.eqb name_i name).
      * unfold external, update_globals. cbn [fst snd].
        rewrite IH by (simpl; lia).
        by rewrite with_calls_app.
      * unfold mret, Method_ret.
        rewrite IH by lia. reflexivity.
    + rewrite drop_ge by lia.
      rewrite invocations_nil, with_calls_nil. reflexivity.
Qed.

(** What [triggerUnityEvent] does, for every handle and every state. *)
Lemma triggerUnityEvent_spec name value this g :
  triggerUnityEvent name value (this, g)
  = (Normal tt,
     (this,
      with_calls
        (calls g ++ invocations name (optional value) (unityEvents this)) g)).
Proof.
  unfold triggerUnityEvent, mbind, Method_bind, get_this. cbn [fst snd].
  rewrite triggerUnityEvent_loop_spec by lia. by rewrite drop_0.
Qed.

(** Allowing more iterations than bindings changes nothing: the loop ends
    by [_i < length], not by the bound. *)
Lemma triggerUnityEvent_loop_bound n m _i name v this g :
  (length (unityEvents this) - _i <= n)%nat ->
  (length (unityEvents this) - _i <= m)%nat ->
  triggerUnityEvent_loop n _i name v (this, g)
  = triggerUnityEvent_loop m _i name v (this, g).
Proof.
  intros Hn Hm. by rewrite !triggerUnityEvent_loop_spec.
Qed.

(** ** Registration *)

Lemma on_spec name cb this g ns :
  window_ReactUnityWebGL g = Some ns ->
  on name cb (this, g)
  = (Normal tt,
     (with_unityEvents
        (unityEvents this ++ [{| eventName := name; eventCallback := cb |}])
        this,
      with_namespace (Some (<[name := Forward cb]> ns)) g)).
Proof.
  intros Hns. unfold on. enter_method. rewrite Hns. reflexivity.
Qed.

(** Without the namespace object the assignment throws, after the push. *)
Lemma on_without_namespace name cb this g :
  window_ReactUnityWebGL g = None ->
  on name cb (this, g)
  = (Throw TypeError,
     (with_unityEvents
        (unityEvents this ++ [{| eventName := name; eventCallback := cb |}])
        this,
      g)).
Proof.
  intros Hns. unfold on. enter_method. rewrite Hns. reflexivity.
Qed.

(** Every construction leaves the namespace object in place. *)
Lemma constructor_namespace b l cfg g :
  is_Some (window_ReactUnityWebGL (snd (constructor b l cfg g))).
Proof. unfold constructor. simpl. eauto. Qed.

(** ** Dispatch *)

(** C1: for every handle, after [on("loaded", cb1)] and then
    [on("loaded", cb2)], [triggerUnityEvent("loaded", 42)] returns normally
    and calls [cb1(42)] and then [cb2(42)], in that order, after the
    callbacks bound to "loaded" before them; on a handle without earlier
    bindings these two calls are all it makes.  In general the dispatch
    calls, front to back, the callback of every binding whose name is the
    event name, each once with the given value, skips none of them, and
    leaves the handle as it was. *)
Theorem C1_dispatch_in_registration_order :
  forall (this : UnityContent) (g : Globals) (cb1 cb2 : Callback),
    is_Some (window_ReactUnityWebGL g) ->
    (exists this' g',
        (on "loaded" cb1;; on "loaded" cb2;;
         triggerUnityEvent "loaded" (Some (VNum 42))) (this, g)
        = (Normal tt, (this', g'))
        /\ unityEvents this'
           = unityEvents this
               ++ [{| eventName := "loaded"; eventCallback := cb1 |};
                   {| eventName := "loaded"; eventCallback := cb2 |}]
        /\ calls g'
           = calls g
               ++ invocations "loaded" (VNum 42) (unityEvents this)
               ++ [Invoke cb1 (VNum 42); Invoke cb2 (VNum 42)]
        /\ (unityEvents this = [] ->
            calls g' = calls g ++ [Invoke cb1 (VNum 42); Invoke cb2 (VNum 42)]))
    /\ (forall name value,
           triggerUnityEvent name value (this, g)
           = (Normal tt,
              (this,
               with_calls
                 (calls g
                    ++ ((fun ev => Invoke (eventCallback ev) (optional value))
                          <$> filter (fun ev => eventName ev = name)
                                (unityEvents this)))
                 g))).
Proof.
  intros this g cb1 cb2 [ns Hns]. split.
  - eexists _, _. split; [| split; [| split]].
    + unfold mbind, Method_bind.
      rewrite (on_spec _ _ _ _ _ Hns).
      rewrite (on_spec _ _ _ _ (<["loaded" := Forward cb1]> ns)) by done.
      rewrite triggerUnityEvent_spec. reflexivity.
    + cbn [with_unityEvents unityEvents]. by rewrite <- app_assoc.
    + cbn [with_unityEvents unityEvents with_namespace with_calls calls optional default].
      rewrite <- app_assoc, invocations_app. reflexivity.
    + intros Hnil.
      cbn [with_unityEvents unityEvents with_namespace with_calls calls optional default].
      rewrite Hnil. reflexivity.
  - intros name value. apply triggerUnityEvent_spec.
Qed.

Lemma C1_dispatch_in_registration_order_witness :
  calls (snd (snd ((on "loaded" (Fn 1);; on "loaded" (Fn 2);;
                    triggerUnityEvent "loaded" (Some (VNum 42)))
                     (fresh_handle, fresh_globals))))
  = [Invoke (Fn 1) (VNum 42); Invoke (Fn 2) (VNum 42)].
Proof.
  destruct (C1_dispatch_in_registration_order
              fresh_handle fresh_globals (Fn 1) (Fn 2))
    as [(this' & g' & Hrun & _ & _ & Hfresh) _].
  - eexists. reflexivity.
  - rewrite Hrun. apply Hfresh. reflexivity.
Defined.

(** C8: [triggerUnityEvent] with an event name that no binding of the
    handle carries calls no callback, throws nothing and leaves the binding
    list, the handle and the process-wide state as they were. *)
Theorem C8_dispatch_without_binding :
  forall (this : UnityContent) (g : Globals) (name : string)
         (value : option JsValue),
    (forall ev, ev ∈ unityEvents this -> eventName ev <> name) ->
    triggerUnityEvent name value (this, g) = (Normal tt, (this, g)).
Proof.
  intros this g name value Hnone.
  rewrite triggerUnityEvent_spec, invocations_none by exact Hnone.
  apply f_equal, f_equal, with_calls_nil.
Qed.

Lemma C8_dispatch_without_binding_witness :
  let this :=
    {| buildJsonPath := "Build/game.json";
       unityLoaderJsPath := "Build/UnityLoader.js";
       unityComponent := None; unityInstance := None;
       unityConfig := empty_config;
       unityEvents := [{| eventName := "loaded"; eventCallback := Fn 1 |}];
       uniqueID := 1 |} in
  triggerUnityEvent "missing" None (this, initial_globals)
  = (Normal tt, (this, initial_globals)).
Proof.
  apply C8_dispatch_without_binding.
  intros ev Hev. apply list_elem_of_singleton in Hev. subst ev.
  simpl. discriminate.
Defined.

(** ** Shutdown *)

(** C5: on a handle whose runtime instance has a [Quit] function,
    [remove] hands [Quit] its callback and does nothing else: it calls no
    callback and keeps the instance.  When the runtime later runs that
    callback, in whatever state the handle then is, "quitted" is dispatched
    once through the binding list with no value (each binding named
    "quitted" is called with [undefined], in order, and nothing else is
    called) and the instance reference is cleared. *)
Theorem C5_remove_quits_then_dispatches_quitted :
  forall (this : UnityContent) (g : Globals) (instance : UnityInstance),
    unityInstance this = Some instance ->
    has_Quit instance = true ->
    remove (this, g)
    = (Normal tt, (this, with_calls (calls g ++ [Quit instance OnQuit]) g))
    /\ forall (this1 : UnityContent) (g1 : Globals),
        apply_QuitCallback OnQuit (this1, g1)
        = (Normal tt,
           (with_unityInstance None this1,
            with_calls
              (calls g1 ++ invocations "quitted" VUndefined (unityEvents this1))
              g1))
        /\ snd (snd (apply_QuitCallback OnQuit (this1, g1)))
           = snd (snd (triggerUnityEvent "quitted" None (this1, g1)))
        /\ unityInstance (fst (snd (apply_QuitCallback OnQuit (this1, g1))))
           = None.
Proof.
  intros this g instance Hinst Hquit. split.
  - unfold remove. enter_method.
    rewrite Hinst, Hquit. reflexivity.
  - intros this1 g1.
    assert (apply_QuitCallback OnQuit (this1, g1)
            = (Normal tt,
               (with_unityInstance None this1,
                with_calls
                  (calls g1
                     ++ invocations "quitted" VUndefined (unityEvents this1))
                  g1))) as Hrun.
    { unfold apply_QuitCallback, mbind, Method_bind.
      rewrite triggerUnityEvent_spec. reflexivity. }
    rewrite Hrun, triggerUnityEvent_spec. auto.
Qed.

Lemma C5_remove_quits_then_dispatches_quitted_witness :
  remove (bound_handle, fresh_globals)
  = (Normal tt,
     (bound_handle,
      with_calls (calls fresh_globals ++ [Quit player OnQuit]) fresh_globals))
  /\ unityInstance
       (fst (snd (apply_QuitCallback OnQuit (bound_handle, fresh_globals))))
     = None.
Proof.
  destruct (C5_remove_quits_then_dispatches_quitted
              bound_handle fresh_globals player eq_refl eq_refl)
    as [Hremove Hquit].
  split; [exact Hremove |].
  apply (Hquit bound_handle fresh_globals).
Defined.

(** C6: when no runtime instance is attached, or the attached instance has
    no [Quit] function, [remove] makes exactly one call, the warning of the
    logging service; it returns normally, dispatches nothing and leaves the
    handle as it was. *)
Theorem C6_remove_unavailable_warns_once :
  forall (this : UnityContent) (g : Globals),
    (unityInstance this = None
     \/ exists instance,
         unityInstance this = Some instance /\ has_Quit instance = false) ->
    remove (this, g)
    = (Normal tt,
       (this,
        with_calls (calls g ++ [WarnUnityContentRemoveNotAvailable]) g))
    /\ invoked (calls (snd (snd (remove (this, g))))) = invoked (calls g).
Proof.
  intros this g Hno.
  assert (remove (this, g)
          = (Normal tt,
             (this,
              with_calls (calls g ++ [WarnUnityContentRemoveNotAvailable]) g)))
    as Hrun.
  { unfold remove. enter_method.
    destruct Hno as [Hnone | (instance & Hsome & Hquit)].
    - rewrite Hnone. reflexivity.
    - rewrite Hsome, Hquit. reflexivity. }
  split; [exact Hrun |].
  rewrite Hrun. cbn [snd with_calls calls]. unfold invoked.
  rewrite omap_app. simpl. apply app_nil_r.
Qed.

Lemma C6_remove_unavailable_warns_once_witness :
  remove (fresh_handle, fresh_globals)
  = (Normal tt,
     (fresh_handle,
      with_calls (calls fresh_globals ++ [WarnUnityContentRemoveNotAvailable])
        fresh_globals))
  /\ remove (with_unityInstance (Some legacy_player) fresh_handle, fresh_globals)
     = (Normal tt,
        (with_unityInstance (Some legacy_player) fresh_handle,
         with_calls
           (calls fresh_globals ++ [WarnUnityContentRemoveNotAvailable])
           fresh_globals)).
Proof.
  split.
  - apply (C6_remove_unavailable_warns_once fresh_handle fresh_globals).
    left. reflexivity.
  - apply (C6_remove_unavailable_warns_once
             (with_unityInstance (Some legacy_player) fresh_handle)
             fresh_globals).
    right. exists legacy_player. split; reflexivity.
Defined.

(** ** Messages and fullscreen *)

Lemma send_unbound o m p this g :
  unityInstance this = None ->
  send o m p (this, g) = (Normal tt, (this, g)).
Proof.
  intros Hnone. unfold send. enter_method.
  rewrite Hnone. reflexivity.
Qed.

Lemma send_bound o m p this g instance :
  unityInstance this = Some instance ->
  send o m p (this, g)
  = (Normal tt,
     (this,
      with_calls
        (calls g
           ++ [SendMessage instance
                 (if decide (optional p = VUndefined)
                  then [VStr o; VStr m]
                  else [VStr o; VStr m; optional p])])
        g)).
Proof.
  intros Hsome. unfold send. enter_method.
  rewrite Hsome. destruct p as [[] |]; reflexivity.
Qed.

(** C7: before a runtime instance is attached, [send] returns normally and
    changes nothing: neither the handle, nor the dispatch namespace, nor
    the log of calls.  With an instance attached it makes exactly one call,
    [SendMessage] on that instance with the object and method names; the
    call has no third argument when the caller gave no parameter, it has
    the parameter as third argument when the caller gave a defined one, and
    it has a third argument only when the caller gave that parameter. *)
Theorem C7_send_forwards_one_message :
  forall (this : UnityContent) (g : Globals)
         (gameObjectName methodName : string) (parameter : option JsValue),
    (unityInstance this = None ->
     send gameObjectName methodName parameter (this, g)
     = (Normal tt, (this, g)))
    /\ (forall instance,
           unityInstance this = Some instance ->
           exists arguments,
             send gameObjectName methodName parameter (this, g)
             = (Normal tt,
                (this,
                 with_calls (calls g ++ [SendMessage instance arguments]) g))
             /\ (parameter = None ->
                 arguments = [VStr gameObjectName; VStr methodName])
             /\ (forall v,
                    parameter = Some v -> v <> VUndefined ->
                    arguments = [VStr gameObjectName; VStr methodName; v])
             /\ (forall v,
                    arguments = [VStr gameObjectName; VStr methodName; v] ->
                    parameter = Some v)).
Proof.
  intros this g o m p. split; [apply send_unbound |].
  intros instance Hsome. eexists. split; [apply send_bound, Hsome |].
  split; [| split].
  - intros ->. reflexivity.
  - intros v -> Hv. cbn [optional default]. by rewrite decide_False.
  - intros v. destruct p as [w |]; cbn [optional default].
    + case_decide; [discriminate |]. by intros [= ->].
    + rewrite decide_True by reflexivity. discriminate.
Qed.

Lemma C7_send_forwards_one_message_witness :
  send "Enemy" "Spawn" (Some (VNum 3)) (fresh_handle, fresh_globals)
  = (Normal tt, (fresh_handle, fresh_globals))
  /\ send "Enemy" "Spawn" (Some (VNum 3)) (bound_handle, fresh_globals)
     = (Normal tt,
        (bound_handle,
         with_calls
           (calls fresh_globals
              ++ [SendMessage player [VStr "Enemy"; VStr "Spawn"; VNum 3]])
           fresh_globals)).
Proof.
  destruct (C7_send_forwards_one_message fresh_handle fresh_globals
              "Enemy" "Spawn" (Some (VNum 3))) as [Hunbound _].
  destruct (C7_send_forwards_one_message bound_handle fresh_globals
              "Enemy" "Spawn" (Some (VNum 3))) as [_ Hbound].
  split; [apply Hunbound; reflexivity |].
  destruct (Hbound player eq_refl) as (arguments & Hrun & _ & Hargs & _).
  rewrite Hrun, (Hargs (VNum 3)); [reflexivity | reflexivity | discriminate].
Defined.

(** C10: with a runtime instance attached, [send] with an explicit
    [undefined] parameter makes the same call as [send] without the
    parameter: [SendMessage] with two arguments.  The two calls of [send]
    are equal in every state. *)
Theorem C10_send_undefined_is_send_omitted :
  forall (this : UnityContent) (g : Globals)
         (gameObjectName methodName : string),
    send gameObjectName methodName (Some VUndefined) (this, g)
    = send gameObjectName methodName None (this, g)
    /\ forall instance,
        unityInstance this = Some instance ->
        send gameObjectName methodName (Some VUndefined) (this, g)
        = (Normal tt,
           (this,
            with_calls
              (calls g
                 ++ [SendMessage instance
                       [VStr gameObjectName; VStr methodName]])
              g)).
Proof.
  intros this g o m. split; [reflexivity |].
  intros instance Hsome. by rewrite (send_bound _ _ _ _ _ _ Hsome).
Qed.

Lemma C10_send_undefined_is_send_omitted_witness :
  send "Enemy" "Spawn" (Some VUndefined) (bound_handle, fresh_globals)
  = (Normal tt,
     (bound_handle,
      with_calls
        (calls fresh_globals
           ++ [SendMessage player [VStr "Enemy"; VStr "Spawn"]])
        fresh_globals)).
Proof.
  apply (C10_send_undefined_is_send_omitted bound_handle fresh_globals
           "Enemy" "Spawn").
  reflexivity.
Defined.

(** C9: [setFullscreen] returns normally and changes nothing when no
    runtime instance is attached.  With an instance attached it makes
    exactly one call, [SetFullscreen] on that instance, with 1 when the
    argument is the boolean [true] and with 0 for every other value, the
    truthy ones that are not booleans included. *)
Theorem C9_setFullscreen_strict_true :
  forall (this : UnityContent) (g : Globals) (fullscreen : JsValue),
    (unityInstance this = None ->
     setFullscreen fullscreen (this, g) = (Normal tt, (this, g)))
    /\ (forall instance,
           unityInstance this = Some instance ->
           (fullscreen = VBool true ->
            setFullscreen fullscreen (this, g)
            = (Normal tt,
               (this, with_calls (calls g ++ [SetFullscreen instance 1]) g)))
           /\ (fullscreen <> VBool true ->
               setFullscreen fullscreen (this, g)
               = (Normal tt,
                  (this,
                   with_calls (calls g ++ [SetFullscreen instance 0]) g)))).
Proof.
  intros this g v. split.
  - intros Hnone. unfold setFullscreen. enter_method. rewrite Hnone. reflexivity.
  - intros instance Hsome.
    unfold setFullscreen. enter_method.
    rewrite Hsome. unfold strict_eq. split; intros Hv.
    + by rewrite bool_decide_eq_true_2.
    + by rewrite bool_decide_eq_false_2.
Qed.

Lemma C9_setFullscreen_strict_true_witness :
  setFullscreen (VBool true) (bound_handle, fresh_globals)
  = (Normal tt,
     (bound_handle,
      with_calls (calls fresh_globals ++ [SetFullscreen player 1])
        fresh_globals))
  /\ setFullscreen (VNum 1) (bound_handle, fresh_globals)
     = (Normal tt,
        (bound_handle,
         with_calls (calls fresh_globals ++ [SetFullscreen player 0])
           fresh_globals))
  /\ setFullscreen (VStr "true") (bound_handle, fresh_globals)
     = (Normal tt,
        (bound_handle,
         with_calls (calls fresh_globals ++ [SetFullscreen player 0])
           fresh_globals))
  /\ setFullscreen (VBool true) (fresh_handle, fresh_globals)
     = (Normal tt, (fresh_handle, fresh_globals)).
Proof.
  split; [| split; [| split]].
  - apply (C9_setFullscreen_strict_true bound_handle fresh_globals (VBool true));
      reflexivity.
  - apply (C9_setFullscreen_strict_true bound_handle fresh_globals (VNum 1));
      [reflexivity | discriminate].
  - apply (C9_setFullscreen_strict_true bound_handle fresh_globals
             (VStr "true")); [reflexivity | discriminate].
  - apply (C9_setFullscreen_strict_true fresh_handle fresh_globals (VBool true)).
    reflexivity.
Defined.

(** ** Registration and the dispatch namespace *)




(** ** Construction *)

(** C3: a handle built from a configuration that supplies only
    [unityVersion = "2020.1"] has the merged configuration
    [{ modules: {}, unityVersion: "2020.1", adjustOnWindowResize: undefined,
    id: "nill" }]; built without a configuration, it has every default.  In
    general a missing [modules] becomes the empty mapping, a missing
    [unityVersion] the string "undefined", a missing [id] the string
    "nill", and [adjustOnWindowResize] is passed through as supplied,
    absent included; a supplied field is kept, but for an empty string,
    which [||] replaces like a missing one. *)
Theorem C3_constructor_merges_defaults :
  forall (buildJsonPath unityLoaderJsPath : string) (g : Globals),
    unityConfig
      (fst (constructor buildJsonPath unityLoaderJsPath
              (Some {| modules := None; unityVersion := Some "2020.1";
                       adjustOnWindowResize := None; id := None |}) g))
    = {| modules := Some ∅; unityVersion := Some "2020.1";
         adjustOnWindowResize := None; id := Some "nill" |}
    /\ unityConfig (fst (constructor buildJsonPath unityLoaderJsPath None g))
       = {| modules := Some ∅; unityVersion := Some "undefined";
            adjustOnWindowResize := None; id := Some "nill" |}
    /\ forall supplied : IUnityConfig,
        let merged :=
          unityConfig
            (fst (constructor buildJsonPath unityLoaderJsPath
                    (Some supplied) g)) in
        (modules supplied = None -> modules merged = Some ∅)
        /\ (unityVersion supplied = None ->
            unityVersion merged = Some "undefined")
        /\ (id supplied = None -> id merged = Some "nill")
        /\ adjustOnWindowResize merged = adjustOnWindowResize supplied
        /\ modules merged = Some (default ∅ (modules supplied))
        /\ unityVersion merged
           = Some (match unityVersion supplied with
                   | Some v => if decide (v = "") then "undefined" else v
                   | None => "undefined"
                   end)
        /\ id merged
           = Some (match id supplied with
                   | Some v => if decide (v = "") then "nill" else v
                   | None => "nill"
                   end).
Proof.
  intros b l g. split; [reflexivity |]. split; [reflexivity |].
  intros supplied merged. subst merged.
  unfold constructor. cbn [fst unityConfig default from_option].
  unfold Datatypes.id.
  cbn [modules unityVersion adjustOnWindowResize id].
  repeat match goal with |- _ /\ _ => split end.
  - by intros ->.
  - by intros ->.
  - by intros ->.
  - reflexivity.
  - by destruct (modules supplied).
  - destruct (unityVersion supplied) as [v |]; [| reflexivity].
    unfold js_or, truthy, string_truthy.
    destruct (String.eqb_spec v "") as [E | E].
    + by rewrite decide_True.
    + by rewrite decide_False.
  - destruct (id supplied) as [v |]; [| reflexivity].
    unfold js_or, truthy, string_truthy.
    destruct (String.eqb_spec v "") as [E | E].
    + by rewrite decide_True.
    + by rewrite decide_False.
Qed.

(** ** Identifiers *)

Section Identifiers.





End Identifiers.

(** ** The namespace exists once a handle does *)

Section Namespace.





End Namespace.



(** * Further properties of the class *)

(** ** What every method leaves alone *)

Lemma remove_spec this g :
  exists c,
    remove (this, g) = (Normal tt, (this, with_calls (calls g ++ [c]) g))
    /\ (c = WarnUnityContentRemoveNotAvailable
        \/ exists instance,
            unityInstance this = Some instance
            /\ has_Quit instance = true /\ c = Quit instance OnQuit).
Proof.
  unfold remove. enter_method.
  destruct (unityInstance this) as [instance |] eqn:Hinst;
    [destruct (has_Quit instance) eqn:Hquit |];
    eexists; (split; [reflexivity |]); eauto 6.
Qed.

Lemma remove_bound this g instance :
  unityInstance this = Some instance ->
  has_Quit instance = true ->
  remove (this, g)
  = (Normal tt, (this, with_calls (calls g ++ [Quit instance OnQuit]) g)).
Proof.
  intros Hinst Hquit. unfold remove. enter_method.
  rewrite Hinst, Hquit. reflexivity.
Qed.

Lemma setFullscreen_spec v this g :
  exists cs,
    setFullscreen v (this, g)
    = (Normal tt, (this, with_calls (calls g ++ cs) g)).
Proof.
  unfold setFullscreen. enter_method.
  destruct (unityInstance this).
  - eexists [_]. reflexivity.
  - exists []. by rewrite with_calls_nil.
Qed.

Lemma send_spec o m p this g :
  exists cs,
    send o m p (this, g) = (Normal tt, (this, with_calls (calls g ++ cs) g)).
Proof.
  destruct (unityInstance this) as [instance |] eqn:Hinst.
  - rewrite (send_bound _ _ _ _ _ _ Hinst). by eexists [_].
  - rewrite (send_unbound _ _ _ _ _ Hinst). exists [].
    by rewrite with_calls_nil.
Qed.

Lemma apply_QuitCallback_spec k this g :
  apply_QuitCallback k (this, g)
  = (Normal tt,
     (with_unityInstance None this,
      with_calls
        (calls g ++ invocations "quitted" VUndefined (unityEvents this)) g)).
Proof.
  destruct k. unfold apply_QuitCallback, mbind, Method_bind.
  rewrite triggerUnityEvent_spec. reflexivity.
Qed.

Lemma handle_frame_refl h : handle_frame h h.
Proof. unfold handle_frame. split_and!; reflexivity. Qed.

Lemma handle_frame_trans h1 h2 h3 :
  handle_frame h1 h2 -> handle_frame h2 h3 -> handle_frame h1 h3.
Proof.
  intros (Hb1 & Hl1 & Hc1 & Hi1 & He1) (Hb2 & Hl2 & Hc2 & Hi2 & He2).
  unfold handle_frame. split_and!; try congruence. by etrans.
Qed.

Lemma registered_with_calls g cs name :
  registered g name -> registered (with_calls cs g) name.
Proof. intros Hreg. exact Hreg. Qed.

(** No method rewrites the paths, the configuration or the identifier of
    its handle, drops or reorders a binding, or removes a name from the
    namespace. *)
Lemma method_body_frame (c : MethodCall) (this : UnityContent) (g : Globals) :
  handle_frame this (fst (snd (method_body c (this, g))))
  /\ forall name,
      registered g name -> registered (snd (snd (method_body c (this, g)))) name.
Proof.
  destruct c as [u | i | v | | o m p | n cb | n v | k]; cbn [method_body].
  - split; [unfold handle_frame; split_and!; reflexivity | auto].
  - split; [unfold handle_frame; split_and!; reflexivity | auto].
  - destruct (setFullscreen_spec v this g) as [cs ->].
    split; [apply handle_frame_refl | auto].
  - destruct (remove_spec this g) as (c & -> & _).
    split; [apply handle_frame_refl | auto].
  - destruct (send_spec o m p this g) as [cs ->].
    split; [apply handle_frame_refl | auto].
  - destruct (window_ReactUnityWebGL g) as [ns |] eqn:Hns.
    + rewrite (on_spec _ _ _ _ _ Hns). cbn [fst snd]. split.
      * unfold handle_frame. split_and!; try reflexivity.
        cbn [with_unityEvents unityEvents]. by apply prefix_app_r.
      * intros name (ns0 & f & Hns0 & Hf).
        rewrite Hns in Hns0. injection Hns0 as <-.
        destruct (decide (n = name)) as [-> | Hne].
        -- exists (<[name := Forward cb]> ns), (Forward cb).
           split; [reflexivity | apply lookup_insert_eq].
        -- exists (<[n := Forward cb]> ns), f.
           split; [reflexivity | by rewrite lookup_insert_ne].
    + rewrite (on_without_namespace _ _ _ _ Hns). cbn [fst snd]. split.
      * unfold handle_frame. split_and!; try reflexivity.
        cbn [with_unityEvents unityEvents]. by apply prefix_app_r.
      * auto.
  - rewrite triggerUnityEvent_spec.
    split; [apply handle_frame_refl | auto].
  - rewrite apply_QuitCallback_spec.
    split; [unfold handle_frame; split_and!; reflexivity | auto].
Qed.

Lemma constructor_registered b l cfg g name :
  registered g name -> registered (snd (constructor b l cfg g)) name.
Proof.
  intros (ns & f & Hns & Hf). exists ns, f.
  unfold constructor. cbn [snd window_ReactUnityWebGL]. by rewrite Hns.
Qed.

Section Runs.

(** A relation every step establishes, closed under composition, holds
    along every run. *)
Variable R : Process -> Process -> Prop.
Hypothesis R_refl : forall p, R p p.
Hypothesis R_trans : forall p1 p2 p3, R p1 p2 -> R p2 p3 -> R p1 p3.
Hypothesis R_step : forall s p p', step s p = Some p' -> R p p'.

Lemma run_relation (steps : list Step) :
  forall p p', run steps p = Some p' -> R p p'.
Proof.
  induction steps as [| s rest IH]; intros p p' Hrun.
  - injection Hrun as <-. apply R_refl.
  - cbn [run] in Hrun.
    destruct (step s p) as [p1 |] eqn:Hstep; [| discriminate].
    eapply R_trans; [by eapply R_step | by apply IH].
Qed.

End Runs.

Lemma process_frame_refl p : process_frame p p.
Proof.
  split; [| auto]. intros i h Hi. exists h.
  split; [exact Hi | apply handle_frame_refl].
Qed.

Lemma process_frame_trans p1 p2 p3 :
  process_frame p1 p2 -> process_frame p2 p3 -> process_frame p1 p3.
Proof.
  intros [Hh12 Hn12] [Hh23 Hn23]. split; [| auto].
  intros i h1 Hi.
  destruct (Hh12 i h1 Hi) as (h2 & Hi2 & Hf12).
  destruct (Hh23 i h2 Hi2) as (h3 & Hi3 & Hf23).
  exists h3. split; [exact Hi3 | by eapply handle_frame_trans].
Qed.

Lemma step_process_frame s p p' : step s p = Some p' -> process_frame p p'.
Proof.
  intros Hstep. destruct s as [b l cfg | target c].
  - cbn in Hstep. injection Hstep as <-. split.
    + intros i h Hi. exists h. cbn [heap].
      split; [| apply handle_frame_refl].
      rewrite lookup_app_l; [exact Hi | by eapply lookup_lt_Some].
    + intros name Hreg. exact (constructor_registered b l cfg _ _ Hreg).
  - cbn [step] in Hstep.
    destruct (heap p !! target) as [this |] eqn:Hthis; [| discriminate].
    cbn [mbind option_bind] in Hstep.
    pose proof (method_body_frame c this (globals p)) as [Hframe Hreg].
    destruct (method_body c (this, globals p)) as [r [this' g]].
    cbn [fst snd] in Hframe, Hreg. injection Hstep as <-. split.
    + intros i h Hi. cbn [heap].
      destruct (decide (i = target)) as [-> | Hne].
      * exists this'.
        rewrite list_lookup_insert_eq by (by eapply lookup_lt_Some).
        rewrite Hthis in Hi. injection Hi as <-. by split.
      * exists h. rewrite list_lookup_insert_ne by done.
        split; [exact Hi | apply handle_frame_refl].
    + exact Hreg.
Qed.

Lemma run_process_frame steps p p' :
  run steps p = Some p' -> process_frame p p'.
Proof.
  apply (run_relation process_frame process_frame_refl process_frame_trans
           step_process_frame).
Qed.

(** ** Invariants of a process *)





(** X3: nothing a process does afterwards changes what the constructor
    stored in a handle: along every run the handle keeps its two paths,
    its merged configuration and its identifier. *)
Theorem X3_construction_data_is_immutable :
  forall (steps : list Step) (p p' : Process) (i : nat) (h : UnityContent),
    run steps p = Some p' ->
    heap p !! i = Some h ->
    exists h',
      heap p' !! i = Some h'
      /\ buildJsonPath h' = buildJsonPath h
      /\ unityLoaderJsPath h' = unityLoaderJsPath h
      /\ unityConfig h' = unityConfig h
      /\ uniqueID h' = uniqueID h.
Proof.
  intros steps p p' i h Hrun Hi.
  destruct (run_process_frame _ _ _ Hrun) as [Hheap _].
  destruct (Hheap i h Hi) as (h' & Hi' & Hb & Hl & Hc & Hid & _).
  exists h'. auto.
Qed.

Lemma X3_construction_data_is_immutable_witness :
  exists h',
    [with_unityEvents [{| eventName := "loaded"; eventCallback := Fn 1 |}]
       fresh_handle] !! 0%nat = Some h'
    /\ buildJsonPath h' = "Build/game.json"
    /\ unityLoaderJsPath h' = "Build/UnityLoader.js"
    /\ unityConfig h' = unityConfig fresh_handle
    /\ uniqueID h' = 1.
Proof.
  apply (X3_construction_data_is_immutable
           [Call 0 (CallOn "loaded" (Fn 1)); Call 0 CallRemove]
           {| heap := [fresh_handle]; globals := fresh_globals |}
           {| heap :=
                [with_unityEvents
                   [{| eventName := "loaded"; eventCallback := Fn 1 |}]
                   fresh_handle];
              globals :=
                with_calls [WarnUnityContentRemoveNotAvailable]
                  (with_namespace (Some (<["loaded" := Forward (Fn 1)]> ∅))
                     fresh_globals) |}
           0%nat fresh_handle); reflexivity.
Defined.

(** X4: a binding is never removed, replaced or moved: what [on] put at
    position [j] of a handle's list is still at position [j] after any
    further steps of the process, shutdown and re-attachment included. *)
Theorem X4_bindings_are_never_removed :
  forall (steps : list Step) (p p' : Process) (i j : nat)
         (h : UnityContent) (ev : IUnityEvent),
    run steps p = Some p' ->
    heap p !! i = Some h ->
    unityEvents h !! j = Some ev ->
    exists h', heap p' !! i = Some h' /\ unityEvents h' !! j = Some ev.
Proof.
  intros steps p p' i j h ev Hrun Hi Hj.
  destruct (run_process_frame _ _ _ Hrun) as [Hheap _].
  destruct (Hheap i h Hi) as (h' & Hi' & _ & _ & _ & _ & Hprefix).
  exists h'. split; [exact Hi' |]. by eapply prefix_lookup_Some.
Qed.

(** X5: a name is never unregistered from [window.ReactUnityWebGL]: once
    some handle has registered it, it stays registered along every run;
    constructing further handles does not reset the namespace and a
    shutdown does not clean it. *)
Theorem X5_names_are_never_unregistered :
  forall (steps : list Step) (p p' : Process) (name : string),
    run steps p = Some p' ->
    registered (globals p) name ->
    registered (globals p') name.
Proof.
  intros steps p p' name Hrun.
  destruct (run_process_frame _ _ _ Hrun) as [_ Hreg]. apply Hreg.
Qed.

Lemma X4_bindings_are_never_removed_witness :
  exists h',
    heap (after restart_steps listening_process) !! 0%nat = Some h'
    /\ unityEvents h' !! 0%nat
       = Some {| eventName := "loaded"; eventCallback := Fn 1 |}.
Proof.
  apply (X4_bindings_are_never_removed restart_steps listening_process
           (after restart_steps listening_process) 0%nat 0%nat
           (with_unityEvents
              [{| eventName := "loaded"; eventCallback := Fn 1 |}]
              bound_handle)); reflexivity.
Defined.

Lemma X5_names_are_never_unregistered_witness :
  registered (globals (after restart_steps listening_process)) "loaded".
Proof.
  apply (X5_names_are_never_unregistered restart_steps listening_process
           (after restart_steps listening_process) "loaded").
  - reflexivity.
  - exists (<["loaded" := Forward (Fn 1)]> ∅), (Forward (Fn 1)).
    split; reflexivity.
Defined.

(** ** The component reference *)

(** No method reads [unityComponent]: on two handles that differ at most
    in it, a method ends the same way, leaves the same process-wide state,
    and leaves handles that again differ at most in it. *)
Lemma method_body_ignores_component (c : MethodCall) (h1 h2 : UnityContent)
    (g : Globals) :
  same_but_component h1 h2 ->
  fst (method_body c (h1, g)) = fst (method_body c (h2, g))
  /\ snd (snd (method_body c (h1, g))) = snd (snd (method_body c (h2, g)))
  /\ same_but_component (fst (snd (method_body c (h1, g))))
       (fst (snd (method_body c (h2, g)))).
Proof.
  destruct h1 as [b1 l1 c1 i1 cfg1 e1 id1], h2 as [b2 l2 c2 i2 cfg2 e2 id2].
  unfold same_but_component, with_unityComponent. cbn.
  intros [= -> -> -> -> -> ->].
  destruct c as [u | i | v | | o m p | n cb | n v | k]; cbn [method_body].
  - split_and!; reflexivity.
  - split_and!; reflexivity.
  - unfold setFullscreen. enter_method. cbn [unityInstance].
    destruct i2; split_and!; reflexivity.
  - unfold remove. enter_method. cbn [unityInstance].
    destruct i2 as [instance |]; [destruct (has_Quit instance) |];
      split_and!; reflexivity.
  - unfold send. enter_method. cbn [unityInstance].
    destruct i2; [case_bool_decide |]; split_and!; reflexivity.
  - destruct (window_ReactUnityWebGL g) as [ns |] eqn:Hns.
    + rewrite !(on_spec _ _ _ _ _ Hns). split_and!; reflexivity.
    + rewrite !(on_without_namespace _ _ _ _ Hns). split_and!; reflexivity.
  - rewrite !triggerUnityEvent_spec. split_and!; reflexivity.
  - rewrite !apply_QuitCallback_spec. split_and!; reflexivity.
Qed.

(** X6: binding a component to a handle changes nothing any method does:
    called after [setComponentInstance], a method ends the same way and
    leaves the same process-wide state (namespace, counter and calls made)
    as without it, and the two resulting handles differ at most in the
    component reference. *)
Theorem X6_component_reference_is_never_read :
  forall (unityComponentInstance : UnityComponent) (c : MethodCall)
         (this : UnityContent) (g : Globals),
    fst ((setComponentInstance unityComponentInstance;; method_body c)
           (this, g))
    = fst (method_body c (this, g))
    /\ snd (snd ((setComponentInstance unityComponentInstance;; method_body c)
                   (this, g)))
       = snd (snd (method_body c (this, g)))
    /\ same_but_component
         (fst (snd ((setComponentInstance unityComponentInstance;;
                     method_body c) (this, g))))
         (fst (snd (method_body c (this, g)))).
Proof.
  intros u c this g.
  change ((setComponentInstance u;; method_body c) (this, g))
    with (method_body c (with_unityComponent (Some u) this, g)).
  apply method_body_ignores_component. reflexivity.
Qed.

(** ** Attaching, shutting down, attaching again *)

(** X7: [setUnityInstance] replaces whatever instance was attached: after
    it, [send] makes its one [SendMessage] call on the new instance,
    [setFullscreen] its one call on the new instance, and nothing is sent
    to the instance attached before. *)
Theorem X7_setUnityInstance_rebinds :
  forall (this : UnityContent) (g : Globals) (instance : UnityInstance)
         (gameObjectName methodName : string) (parameter : option JsValue)
         (fullscreen : JsValue),
    (exists arguments,
        (setUnityInstance instance;;
         send gameObjectName methodName parameter) (this, g)
        = (Normal tt,
           (with_unityInstance (Some instance) this,
            with_calls (calls g ++ [SendMessage instance arguments]) g)))
    /\ (exists n,
           (setUnityInstance instance;; setFullscreen fullscreen) (this, g)
           = (Normal tt,
              (with_unityInstance (Some instance) this,
               with_calls (calls g ++ [SetFullscreen instance n]) g))).
Proof.
  intros this g instance o m p v. split.
  - eexists.
    change ((setUnityInstance instance;; send o m p) (this, g))
      with (send o m p (with_unityInstance (Some instance) this, g)).
    by rewrite (send_bound _ _ _ _ _ instance).
  - eexists.
    change ((setUnityInstance instance;; setFullscreen v) (this, g))
      with (setFullscreen v (with_unityInstance (Some instance) this, g)).
    reflexivity.
Qed.

(** X8: [remove] never detaches the instance itself: in every case it
    returns normally, makes exactly one external call and leaves the handle
    as it was.  So between [remove] and the completion of the shutdown the
    handle is still bound, and [send] still forwards to the instance. *)
Theorem X8_remove_does_not_detach :
  forall (this : UnityContent) (g : Globals) (instance : UnityInstance)
         (gameObjectName methodName : string) (parameter : option JsValue),
    unityInstance this = Some instance ->
    exists c arguments,
      remove (this, g) = (Normal tt, (this, with_calls (calls g ++ [c]) g))
      /\ (remove;; send gameObjectName methodName parameter) (this, g)
         = (Normal tt,
            (this,
             with_calls (calls g ++ [c; SendMessage instance arguments]) g)).
Proof.
  intros this g instance o m p Hinst.
  destruct (remove_spec this g) as (c & Hremove & _).
  exists c. eexists. split; [exact Hremove |].
  unfold mbind, Method_bind. rewrite Hremove.
  rewrite (send_bound _ _ _ _ _ _ Hinst).
  cbn [with_calls calls]. by rewrite <- app_assoc.
Qed.

Lemma X8_remove_does_not_detach_witness :
  exists c arguments,
    remove (bound_handle, fresh_globals)
    = (Normal tt,
       (bound_handle, with_calls (calls fresh_globals ++ [c]) fresh_globals))
    /\ (remove;; send "Enemy" "Spawn" None) (bound_handle, fresh_globals)
       = (Normal tt,
          (bound_handle,
           with_calls
             (calls fresh_globals ++ [c; SendMessage player arguments])
             fresh_globals)).
Proof.
  apply (X8_remove_does_not_detach bound_handle fresh_globals player
           "Enemy" "Spawn" None).
  reflexivity.
Defined.

(** X9: the life cycle closes.  Attaching an instance that has [Quit] to
    an unbound handle, calling [remove] and letting the runtime run the
    callback brings the handle back exactly to where it started, bindings
    included; what happened in between is one [Quit] call followed by the
    dispatch of "quitted". *)
Theorem X9_attach_remove_quit_round_trip :
  forall (this : UnityContent) (g : Globals) (instance : UnityInstance),
    unityInstance this = None ->
    has_Quit instance = true ->
    (setUnityInstance instance;; remove;; apply_QuitCallback OnQuit) (this, g)
    = (Normal tt,
       (this,
        with_calls
          (calls g
             ++ Quit instance OnQuit
                :: invocations "quitted" VUndefined (unityEvents this))
          g)).
Proof.
  intros this g instance Hnone Hquit.
  change ((setUnityInstance instance;; remove;; apply_QuitCallback OnQuit)
            (this, g))
    with ((remove;; apply_QuitCallback OnQuit)
            (with_unityInstance (Some instance) this, g)).
  unfold mbind at 1, Method_bind at 1.
  unfold remove. enter_method. cbn [with_unityInstance unityInstance].
  rewrite Hquit. unfold external, update_globals. cbn [fst snd].
  rewrite apply_QuitCallback_spec.
  cbn [with_unityInstance with_calls calls unityEvents].
  rewrite <- app_assoc. destruct this; cbn in *. by rewrite Hnone.
Qed.

Lemma X9_attach_remove_quit_round_trip_witness :
  (setUnityInstance player;; remove;; apply_QuitCallback OnQuit)
    (fresh_handle, fresh_globals)
  = (Normal tt,
     (fresh_handle,
      with_calls (calls fresh_globals ++ [Quit player OnQuit]) fresh_globals)).
Proof.
  apply (X9_attach_remove_quit_round_trip fresh_handle fresh_globals player);
    reflexivity.
Defined.

(** X10: once the shutdown callback has run, the handle behaves as one
    that never had an instance: [send] and [setFullscreen] change nothing,
    and a further [remove] logs the warning instead of calling [Quit]
    again. *)
Theorem X10_after_quit_the_handle_is_unbound :
  forall (this : UnityContent) (g : Globals) (k : QuitCallback)
         (gameObjectName methodName : string) (parameter : option JsValue)
         (fullscreen : JsValue),
    let s := snd (apply_QuitCallback k (this, g)) in
    send gameObjectName methodName parameter s = (Normal tt, s)
    /\ setFullscreen fullscreen s = (Normal tt, s)
    /\ remove s
       = (Normal tt,
          (fst s,
           with_calls (calls (snd s) ++ [WarnUnityContentRemoveNotAvailable])
             (snd s))).
Proof.
  intros this g k o m p v s. subst s.
  rewrite apply_QuitCallback_spec. cbn [snd fst].
  split; [by apply send_unbound | split; reflexivity].
Qed.

(** X11: the shutdown callback clears whatever instance is attached when
    it runs, not the one [remove] was called for.  If a new instance is
    attached between [remove] and the completion, the completion detaches
    the new one, and a [send] after it reaches no instance. *)
Theorem X11_late_quit_detaches_a_new_instance :
  forall (this : UnityContent) (g : Globals) (old new : UnityInstance)
         (gameObjectName methodName : string) (parameter : option JsValue),
    unityInstance this = Some old ->
    has_Quit old = true ->
    (remove;; setUnityInstance new;; apply_QuitCallback OnQuit;;
     send gameObjectName methodName parameter) (this, g)
    = (Normal tt,
       (with_unityInstance None this,
        with_calls
          (calls g
             ++ Quit old OnQuit
                :: invocations "quitted" VUndefined (unityEvents this))
          g)).
Proof.
  intros this g old new o m p Hold Hquit.
  unfold remove. enter_method. rewrite Hold, Hquit.
  unfold external, update_globals, setUnityInstance, update_this.
  cbn [fst snd]. rewrite apply_QuitCallback_spec.
  rewrite send_unbound by reflexivity.
  cbn [with_unityInstance with_calls calls unityEvents].
  by rewrite <- app_assoc.
Qed.

Lemma X11_late_quit_detaches_a_new_instance_witness :
  (remove;; setUnityInstance legacy_player;; apply_QuitCallback OnQuit;;
   send "Enemy" "Spawn" None) (bound_handle, fresh_globals)
  = (Normal tt,
     (fresh_handle,
      with_calls (calls fresh_globals ++ [Quit player OnQuit]) fresh_globals)).
Proof.
  apply (X11_late_quit_detaches_a_new_instance bound_handle fresh_globals
           player legacy_player "Enemy" "Spawn" None); reflexivity.
Defined.

(** X12: nothing guards against a second shutdown.  Calling [remove]
    twice on a running handle calls [Quit] twice, and each run of the
    callback dispatches "quitted" again: after two runs every "quitted"
    binding has been called twice. *)
Theorem X12_remove_twice_quits_twice :
  forall (this : UnityContent) (g : Globals) (instance : UnityInstance),
    unityInstance this = Some instance ->
    has_Quit instance = true ->
    (remove;; remove) (this, g)
    = (Normal tt,
       (this,
        with_calls
          (calls g ++ [Quit instance OnQuit; Quit instance OnQuit]) g))
    /\ (apply_QuitCallback OnQuit;; apply_QuitCallback OnQuit) (this, g)
       = (Normal tt,
          (with_unityInstance None this,
           with_calls
             (calls g
                ++ invocations "quitted" VUndefined (unityEvents this)
                ++ invocations "quitted" VUndefined (unityEvents this))
             g)).
Proof.
  intros this g instance Hinst Hquit. split.
  - unfold mbind, Method_bind.
    rewrite (remove_bound _ _ _ Hinst Hquit).
    rewrite (remove_bound _ _ _ Hinst Hquit).
    by rewrite with_calls_app.
  - unfold mbind, Method_bind. rewrite !apply_QuitCallback_spec.
    cbn [with_unityInstance with_calls calls unityEvents].
    by rewrite <- app_assoc.
Qed.

Lemma X12_remove_twice_quits_twice_witness :
  (remove;; remove) (bound_handle, fresh_globals)
  = (Normal tt,
     (bound_handle,
      with_calls
        (calls fresh_globals ++ [Quit player OnQuit; Quit player OnQuit])
        fresh_globals)).
Proof.
  apply (X12_remove_twice_quits_twice bound_handle fresh_globals player);
    reflexivity.
Defined.

(** ** Several handles, several registrations *)







(** X17: [on] pushes before it assigns.  If [window.ReactUnityWebGL] is
    undefined when [on] is called, the call throws a [TypeError], but the
    binding is already in the handle's list: a later dispatch of the name
    calls the callback, although the registration failed and the namespace
    is still undefined. *)
Theorem X17_on_pushes_before_it_throws :
  forall (this : UnityContent) (g : Globals) (name : string)
         (callback : Callback) (value : option JsValue),
    window_ReactUnityWebGL g = None ->
    exists this',
      on name callback (this, g) = (Throw TypeError, (this', g))
      /\ unityEvents this'
         = unityEvents this
             ++ [{| eventName := name; eventCallback := callback |}]
      /\ triggerUnityEvent name value (this', g)
         = (Normal tt,
            (this',
             with_calls
               (calls g
                  ++ invocations name (optional value) (unityEvents this)
                  ++ [Invoke callback (optional value)])
               g)).
Proof.
  intros this g name callback value Hns.
  eexists. split; [apply (on_without_namespace _ _ _ _ Hns) |].
  split; [reflexivity |].
  rewrite triggerUnityEvent_spec. cbn [with_unityEvents unityEvents].
  rewrite invocations_app, invocations_cons, invocations_nil.
  cbn [eventName eventCallback]. rewrite String.eqb_refl.
  by rewrite app_nil_r.
Qed.

Lemma X17_on_pushes_before_it_throws_witness :
  exists this',
    on "loaded" (Fn 1) (fresh_handle, initial_globals)
    = (Throw TypeError, (this', initial_globals))
    /\ triggerUnityEvent "loaded" (Some (VNum 42)) (this', initial_globals)
       = (Normal tt,
          (this',
           with_calls [Invoke (Fn 1) (VNum 42)] initial_globals)).
Proof.
  destruct (X17_on_pushes_before_it_throws fresh_handle initial_globals
              "loaded" (Fn 1) (Some (VNum 42)) eq_refl)
    as (this' & Hthrow & _ & Hfire).
  exists this'. split; [exact Hthrow | exact Hfire].
Defined.

(** ** The constructor *)

Lemma js_or_stable {A : Type} `{Truthy A} (x : option A) (d : A) :
  truthy d = true ->
  truthy (js_or x d) = true /\ js_or (Some (js_or x d)) d = js_or x d.
Proof.
  intros Hd. unfold js_or at 1 3 4.
  destruct x as [a |]; [destruct (truthy a) eqn:Ha |];
    cbn [js_or]; rewrite ?Ha, ?Hd; auto.
Qed.

Lemma string_truthy_nonempty (s : string) : truthy s = true -> s <> "".
Proof.
  unfold truthy, string_truthy. intros Hs ->. discriminate.
Qed.

(** X14: the merged configuration of a handle is complete: whatever
    configuration is supplied, empty strings included, or none at all,
    [modules] is defined and [unityVersion] and [id] are non-empty
    strings.  Merging is also stable: a handle built from the merged
    configuration of another has the same merged configuration. *)
Theorem X14_merged_config_is_complete_and_stable :
  forall (buildJsonPath unityLoaderJsPath : string)
         (unityConfig0 : option IUnityConfig) (g : Globals),
    let merged :=
      unityConfig
        (fst (constructor buildJsonPath unityLoaderJsPath unityConfig0 g)) in
    (exists ms v i,
        modules merged = Some ms
        /\ unityVersion merged = Some v /\ v <> ""
        /\ id merged = Some i /\ i <> "")
    /\ forall (b l : string) (g' : Globals),
        unityConfig (fst (constructor b l (Some merged) g')) = merged.
Proof.
  intros b0 l0 cfg g merged. subst merged.
  unfold constructor. cbn [fst unityConfig].
  set (supplied := default empty_config cfg).
  destruct (js_or_stable (modules supplied) ∅ eq_refl) as [_ Hm].
  destruct (js_or_stable (unityVersion supplied) "undefined" eq_refl)
    as [Hv1 Hv2].
  destruct (js_or_stable (id supplied) "nill" eq_refl) as [Hi1 Hi2].
  split.
  - eexists _, _, _. cbn [modules unityVersion id].
    split_and!; try reflexivity; by apply string_truthy_nonempty.
  - intros b l g'. cbn [default from_option]. unfold Datatypes.id.
    cbn [modules unityVersion adjustOnWindowResize id].
    by rewrite Hm, Hv2, Hi2.
Qed.

(** X15: a handle is born unbound and without bindings, and constructing
    it calls nothing.  On a handle just constructed, with any
    configuration and in any process, [send] and [setFullscreen] change
    nothing, a dispatch of any name calls nothing, and [remove] only logs
    its warning. *)
Theorem X15_new_handle_is_inert :
  forall (buildJsonPath unityLoaderJsPath : string)
         (unityConfig0 : option IUnityConfig) (g : Globals)
         (gameObjectName methodName name : string)
         (parameter value : option JsValue) (fullscreen : JsValue),
    let s := constructor buildJsonPath unityLoaderJsPath unityConfig0 g in
    calls (snd s) = calls g
    /\ send gameObjectName methodName parameter s = (Normal tt, s)
    /\ setFullscreen fullscreen s = (Normal tt, s)
    /\ triggerUnityEvent name value s = (Normal tt, s)
    /\ remove s
       = (Normal tt,
          (fst s,
           with_calls (calls (snd s) ++ [WarnUnityContentRemoveNotAvailable])
             (snd s))).
Proof.
  intros b l cfg g o m name p value v s. subst s.
  unfold constructor. split_and!; reflexivity.
Qed.

(** ** Which instances are called *)

Lemma invocations_no_instance name v evs c :
  c ∈ invocations name v evs -> instance_of c = None.
Proof.
  unfold invocations. intros Hc.
  apply list_elem_of_fmap in Hc as (ev & -> & _). reflexivity.
Qed.

Lemma setFullscreen_calls v this g :
  exists cs,
    setFullscreen v (this, g)
    = (Normal tt, (this, with_calls (calls g ++ cs) g))
    /\ forall c' i,
        c' ∈ cs -> instance_of c' = Some i -> unityInstance this = Some i.
Proof.
  unfold setFullscreen. enter_method.
  destruct (unityInstance this) as [instance |].
  - eexists [_]. split; [reflexivity |].
    intros c' i Hc' Hi. apply list_elem_of_singleton in Hc'. by subst c'.
  - exists []. split; [by rewrite with_calls_nil |].
    intros c' i Hc'. by apply elem_of_nil in Hc'.
Qed.

Lemma send_calls o m p this g :
  exists cs,
    send o m p (this, g) = (Normal tt, (this, with_calls (calls g ++ cs) g))
    /\ forall c' i,
        c' ∈ cs -> instance_of c' = Some i -> unityInstance this = Some i.
Proof.
  destruct (unityInstance this) as [instance |] eqn:Hinst.
  - rewrite (send_bound _ _ _ _ _ _ Hinst). eexists [_].
    split; [reflexivity |].
    intros c' i Hc' Hi. apply list_elem_of_singleton in Hc'. by subst c'.
  - rewrite (send_unbound _ _ _ _ _ Hinst). exists [].
    split; [by rewrite with_calls_nil |].
    intros c' i Hc'. by apply elem_of_nil in Hc'.
Qed.

(** The calls a method adds are made on the instance of its handle, and
    the handle ends with the instance it had or the one just set. *)
Lemma method_body_instances (c : MethodCall) (this : UnityContent)
    (g : Globals) :
  (exists cs,
      calls (snd (snd (method_body c (this, g)))) = calls g ++ cs
      /\ forall c' i,
          c' ∈ cs -> instance_of c' = Some i -> unityInstance this = Some i)
  /\ forall i,
      unityInstance (fst (snd (method_body c (this, g)))) = Some i ->
      unityInstance this = Some i \/ c = CallSetUnityInstance i.
Proof.
  destruct c as [u | i0 | v | | o m p | n cb | n v | k]; cbn [method_body].
  - split; [| auto]. exists []. split; [by rewrite app_nil_r |].
    intros c' i Hc'. by apply elem_of_nil in Hc'.
  - split.
    + exists []. split; [by rewrite app_nil_r |].
      intros c' i Hc'. by apply elem_of_nil in Hc'.
    + intros i [= ->]. by right.
  - destruct (setFullscreen_calls v this g) as (cs & -> & Hcs).
    split; [| auto]. exists cs. split; [reflexivity | exact Hcs].
  - destruct (remove_spec this g) as (c & -> & Hc). split; [| auto].
    exists [c]. split; [reflexivity |].
    intros c' i Hc' Hi. apply list_elem_of_singleton in Hc'. subst c'.
    destruct Hc as [-> | (instance & Hinst & _ & ->)]; [discriminate |].
    by injection Hi as <-.
  - destruct (send_calls o m p this g) as (cs & -> & Hcs).
    split; [| auto]. exists cs. split; [reflexivity | exact Hcs].
  - assert (exists this',
               snd (on n cb (this, g)) = (this', snd (snd (on n cb (this, g))))
               /\ unityInstance this' = unityInstance this
               /\ calls (snd (snd (on n cb (this, g)))) = calls g)
      as (this' & Hsnd & Hsame & Hcalls).
    { destruct (window_ReactUnityWebGL g) as [ns |] eqn:Hns.
      - rewrite (on_spec _ _ _ _ _ Hns). eexists. split_and!; reflexivity.
      - rewrite (on_without_namespace _ _ _ _ Hns).
        eexists. split_and!; reflexivity. }
    split.
    + exists []. split; [by rewrite app_nil_r |].
      intros c' i Hc'. by apply elem_of_nil in Hc'.
    + intros i. rewrite Hsnd. cbn [fst]. rewrite Hsame. auto.
  - rewrite triggerUnityEvent_spec. split; [| auto].
    eexists. split; [reflexivity |].
    intros c' i Hc' Hi. apply invocations_no_instance in Hc'. congruence.
  - rewrite apply_QuitCallback_spec. split; [| discriminate].
    eexists. split; [reflexivity |].
    intros c' i Hc' Hi. apply invocations_no_instance in Hc'. congruence.
Qed.

Lemma talks_only_to_initial : talks_only_to [] initial_process.
Proof.
  split.
  - intros k h i Hk. by destruct k.
  - intros c i Hc. by apply elem_of_nil in Hc.
Qed.

Lemma step_talks_only_to s known p p' :
  talks_only_to known p ->
  step s p = Some p' ->
  talks_only_to (known ++ attached_by [s]) p'.
Proof.
  intros [Hheap Hcalls] Hstep. destruct s as [b l cfg | target c].
  - cbn in Hstep. injection Hstep as <-. cbn [attached_by omap].
    rewrite app_nil_r. split.
    + intros k h i. cbn [heap]. rewrite lookup_snoc_Some.
      intros [[_ Hk] | [_ <-]] Hi; [by eapply Hheap | discriminate].
    + exact Hcalls.
  - cbn [step] in Hstep.
    destruct (heap p !! target) as [this |] eqn:Hthis; [| discriminate].
    cbn [mbind option_bind] in Hstep.
    pose proof (method_body_instances c this (globals p))
      as [(cs & Hcs & Hmade) Hkept].
    destruct (method_body c (this, globals p)) as [r [this' g]].
    cbn [fst snd] in Hcs, Hkept. injection Hstep as <-. split.
    + intros k h i. cbn [heap]. rewrite list_lookup_insert_Some.
      intros [(-> & <- & _) | [_ Hk]] Hi.
      * destruct (Hkept i Hi) as [Hold | ->].
        -- apply elem_of_app. left. by eapply Hheap.
        -- apply elem_of_app. right. cbn. by left.
      * apply elem_of_app. left. by eapply Hheap.
    + intros c' i. cbn [globals]. rewrite Hcs, elem_of_app.
      intros [Hc' | Hc'] Hi; apply elem_of_app; left.
      * by eapply Hcalls.
      * eapply Hheap; [exact Hthis | by eapply Hmade].
Qed.

Lemma run_talks_only_to steps :
  forall known p p',
    talks_only_to known p ->
    run steps p = Some p' ->
    talks_only_to (known ++ attached_by steps) p'.
Proof.
  induction steps as [| s rest IH]; intros known p p' Hp Hrun.
  - injection Hrun as <-. cbn. by rewrite app_nil_r.
  - cbn [run] in Hrun.
    destruct (step s p) as [p1 |] eqn:Hstep; [| discriminate].
    cbn [mbind option_bind] in Hrun.
    change (s :: rest) with ([s] ++ rest).
    unfold attached_by. rewrite omap_app, app_assoc.
    apply (IH _ p1 p'); [| exact Hrun].
    exact (step_talks_only_to s known p p1 Hp Hstep).
Qed.

(** X18: a process only ever talks to instances it was given.  Every
    [SetFullscreen], [SendMessage] and [Quit] call in the log of a run was
    made on an instance that some step of the run passed to
    [setUnityInstance]; a run that attaches none makes no such call. *)
Theorem X18_calls_reach_attached_instances_only :
  forall (steps : list Step) (p : Process) (c : ExternalCall)
         (i : UnityInstance),
    run steps initial_process = Some p ->
    c ∈ calls (globals p) ->
    instance_of c = Some i ->
    i ∈ attached_by steps.
Proof.
  intros steps p c i Hrun Hc Hi.
  destruct (run_talks_only_to steps [] _ _ talks_only_to_initial Hrun)
    as [_ Hcalls].
  exact (Hcalls c i Hc Hi).
Qed.

Lemma X18_calls_reach_attached_instances_only_witness :
  player
  ∈ attached_by
      [New "Build/game.json" "Build/UnityLoader.js" None;
       Call 0 (CallSetUnityInstance player);
       Call 0 (CallSend "Enemy" "Spawn" None)].
Proof.
  apply (X18_calls_reach_attached_instances_only
           [New "Build/game.json" "Build/UnityLoader.js" None;
            Call 0 (CallSetUnityInstance player);
            Call 0 (CallSend "Enemy" "Spawn" None)]
           (after
              [New "Build/game.json" "Build/UnityLoader.js" None;
               Call 0 (CallSetUnityInstance player);
               Call 0 (CallSend "Enemy" "Spawn" None)]
              initial_process)
           (SendMessage player [VStr "Enemy"; VStr "Spawn"]) player).
  - reflexivity.
  - apply list_elem_of_singleton. reflexivity.
  - reflexivity.
Defined.
